(** * Aurelio: ledger entry form, dual write, and migration registry

    A shallow embedding of

    - the ledger view's [<script setup>] block (the variant with the
      database: [saveToLadger], [updateDebitCreditValues], [onMounted]),
    - its earlier archive-only variant kept under [src/views/AppHome.vue],
    - the migration aggregator [all_migrations] of
      [src-tauri/src/db/migrations/mod.rs], the [run] entry point, and the
      trigger helper of [helpers.rs].

    Money values are integer minor units and are modelled by [Z]; strings are
    [string]; the Home-relative file tree is a [gmap] from paths to contents
    and a [gset] of directories; Rust's [HashSet<i64>] is a [gset Z]. *)

From Stdlib Require Import Ascii.
From stdpp Require Import base numbers list strings gmap pretty sorting.

Open Scope string_scope.
Open Scope Z_scope.

(** ** JavaScript side: a state-and-exception monad *)

Module Js.

(** A thrown JavaScript value. The plugins reject with a message. *)
Definition JsError := string.

Inductive Completion (A : Type) : Type :=
| Normal (a : A)
| Throw (e : JsError).
Arguments Normal {A} a.
Arguments Throw {A} e.

Section Monad.
Context {W : Type}.

Definition M (A : Type) : Type := W → Completion A * W.

Definition ret {A} (a : A) : M A := λ w, (Normal a, w).

Definition bind {A B} (m : M A) (k : A → M B) : M B :=
  λ w, match m w with
       | (Normal a, w') => k a w'
       | (Throw e, w') => (Throw e, w')
       end.

Definition throw {A} (e : JsError) : M A := λ w, (Throw e, w).

(** [try { body } catch (error) { handler }] *)
Definition try_catch {A} (body : M A) (handler : JsError → M A) : M A :=
  λ w, match body w with
       | (Normal a, w') => (Normal a, w')
       | (Throw e, w') => handler e w'
       end.

Definition get : M W := λ w, (Normal w, w).
Definition modify (f : W → W) : M unit := λ w, (Normal tt, f w).
End Monad.
Arguments M : clear implicits.

Declare Scope js_scope.
Delimit Scope js_scope with js.
Notation "x <- m ;; k" := (bind m (λ x, k))
  (at level 100, m at next level, right associativity) : js_scope.
Notation "m ;;; k" := (bind m (λ _, k))
  (at level 100, right associativity) : js_scope.

End Js.

(** ** The ledger view (variant with the database) *)

Module AppHome.
Import Js.

(** Modelled from the spec: the [transactions] table, whose migration is not
    part of the sources. One row per entry with columns
    [debitor (text), debit (integer), credit (integer), creditor (text),
    timestamp (text)] and an autoincrementing identity column [id]. *)
Record Row := mkRow {
  row_id : Z;
  row_debitor : string;
  row_debit : Z;
  row_credit : Z;
  row_creditor : string;
  row_timestamp : string
}.

(** The SQLite file behind [sqlite:aurelio.db]: the table in rowid order
    and the autoincrement counter. *)
Record Database := mkDatabase {
  table : list Row;
  last_id : Z
}.

Inductive ConsoleEntry :=
| ConsoleLog (msg : string)
| ConsoleError (msg : string) (error : JsError).

(** The component's refs together with the parts of the outside world the
    script touches. *)
Record World := mkWorld {
  (* refs *)
  debitor : string;
  debit : Z;
  credit : Z;
  creditor : string;
  db : option string;            (* [null] or the loaded connection *)
  transactions : list Row;
  (* outside world *)
  files : gmap string string;    (* Home-relative path ↦ content *)
  dirs : gset string;            (* Home-relative directories *)
  sqlite : Database;
  console : list ConsoleEntry;
  ticks : nat                    (* number of clock readings taken *)
}.

(** What the environment decides: the clock and which plugin call rejects. *)
Record Env := mkEnv {
  clock : nat → string;          (* n-th [new Date().toISOString()] *)
  exists_fault : option JsError;
  mkdir_fault : option JsError;
  writeTextFile_fault : option JsError;
  execute_fault : option JsError;
  select_fault : option JsError;
  load_fault : option JsError
}.

Definition set_debitor (v : string) (w : World) : World :=
  mkWorld v (debit w) (credit w) (creditor w) (db w) (transactions w)
          (files w) (dirs w) (sqlite w) (console w) (ticks w).
Definition set_debit (v : Z) (w : World) : World :=
  mkWorld (debitor w) v (credit w) (creditor w) (db w) (transactions w)
          (files w) (dirs w) (sqlite w) (console w) (ticks w).
Definition set_credit (v : Z) (w : World) : World :=
  mkWorld (debitor w) (debit w) v (creditor w) (db w) (transactions w)
          (files w) (dirs w) (sqlite w) (console w) (ticks w).
Definition set_creditor (v : string) (w : World) : World :=
  mkWorld (debitor w) (debit w) (credit w) v (db w) (transactions w)
          (files w) (dirs w) (sqlite w) (console w) (ticks w).
Definition set_db (v : option string) (w : World) : World :=
  mkWorld (debitor w) (debit w) (credit w) (creditor w) v (transactions w)
          (files w) (dirs w) (sqlite w) (console w) (ticks w).
Definition set_transactions (v : list Row) (w : World) : World :=
  mkWorld (debitor w) (debit w) (credit w) (creditor w) (db w) v
          (files w) (dirs w) (sqlite w) (console w) (ticks w).
Definition set_files (v : gmap string string) (w : World) : World :=
  mkWorld (debitor w) (debit w) (credit w) (creditor w) (db w) (transactions w)
          v (dirs w) (sqlite w) (console w) (ticks w).
Definition set_dirs (v : gset string) (w : World) : World :=
  mkWorld (debitor w) (debit w) (credit w) (creditor w) (db w) (transactions w)
          (files w) v (sqlite w) (console w) (ticks w).
Definition set_sqlite (v : Database) (w : World) : World :=
  mkWorld (debitor w) (debit w) (credit w) (creditor w) (db w) (transactions w)
          (files w) (dirs w) v (console w) (ticks w).
Definition set_console (v : list ConsoleEntry) (w : World) : World :=
  mkWorld (debitor w) (debit w) (credit w) (creditor w) (db w) (transactions w)
          (files w) (dirs w) (sqlite w) v (ticks w).
Definition set_ticks (v : nat) (w : World) : World :=
  mkWorld (debitor w) (debit w) (credit w) (creditor w) (db w) (transactions w)
          (files w) (dirs w) (sqlite w) (console w) v.

(** *** Strings *)

(** [s.replace(/[:.]/g, '-')] *)
Fixpoint replace_colon_dot (s : string) : string :=
  match s with
  | EmptyString => EmptyString
  | String c s' =>
      String (if (Ascii.eqb c ":" || Ascii.eqb c ".")%bool then "-"%char else c)
             (replace_colon_dot s')
  end.

(** Template-literal rendering of an integer number. *)
Definition num_to_string (n : Z) : string := pretty n.

Definition bool_to_string (b : bool) : string :=
  if b then "true" else "false".

Definition NL : string := String (Ascii.ascii_of_nat 10) EmptyString.

(** The proper directory prefixes of a [/]-separated path, outermost first:
    what [mkdir] creates on the way with [recursive: true]. *)
Fixpoint path_prefixes (acc s : string) : list string :=
  match s with
  | EmptyString => []
  | String c s' =>
      if Ascii.eqb c "/" then acc :: path_prefixes (acc +:+ "/") s'
      else path_prefixes (acc +:+ String c EmptyString) s'
  end.

(** *** Primitive operations *)

Section Ops.
Variable env : Env.

Definition console_log (msg : string) : M World unit :=
  modify (λ w, set_console (console w ++ [ConsoleLog msg]) w).

Definition console_error (msg : string) (error : JsError) : M World unit :=
  modify (λ w, set_console (console w ++ [ConsoleError msg error]) w).

(** [new Date().toISOString()]: one reading of the process clock. *)
Definition new_Date_toISOString : M World string :=
  λ w, (Normal (clock env (ticks w)), set_ticks (S (ticks w)) w).

(** [exists(path, { baseDir: BaseDirectory.Home })] *)
Definition fs_exists (path : string) : M World bool :=
  match exists_fault env with
  | Some e => throw e
  | None => λ w, (Normal (bool_decide (path ∈ dirs w)), w)
  end.

(** [mkdir(path, { baseDir: BaseDirectory.Home, recursive: true })] *)
Definition fs_mkdir (path : string) : M World unit :=
  match mkdir_fault env with
  | Some e => throw e
  | None =>
      modify (λ w, set_dirs (dirs w ∪ list_to_set (path_prefixes "" path)
                                    ∪ {[path]}) w)
  end.

(** [writeTextFile(path, content, { baseDir: BaseDirectory.Home })] *)
Definition writeTextFile (path content : string) : M World unit :=
  match writeTextFile_fault env with
  | Some e => throw e
  | None => modify (λ w, set_files (<[path := content]> (files w)) w)
  end.

Definition insert_row (d : string) (de c : Z) (cr ts : string)
           (s : Database) : Database :=
  mkDatabase (table s ++ [mkRow (last_id s + 1) d de c cr ts])
             (last_id s + 1).

(** Reading a method off [db.value]: a TypeError when the ref still holds
    [null], raised before the call's arguments are evaluated. *)
Definition db_value_method (name : string) : M World string :=
  λ w, match db w with
       | None =>
           (Throw ("TypeError: Cannot read properties of null (reading '"
                     +:+ name +:+ "')"), w)
       | Some conn => (Normal conn, w)
       end.

(** [execute(`INSERT INTO transactions (debitor, debit, credit, creditor,
    timestamp) VALUES (?, ?, ?, ?, ?)`, [...])]: one row, one statement. *)
Definition execute_insert (conn : string)
           (d : string) (de c : Z) (cr ts : string) : M World unit :=
  match execute_fault env with
  | Some e => throw e
  | None => modify (λ w, set_sqlite (insert_row d de c cr ts (sqlite w)) w)
  end.

(** [select(`select * from transactions`, [])]: the whole table, as SQLite
    scans it, by ascending rowid. *)
Definition select_all (conn : string) : M World (list Row) :=
  match select_fault env with
  | Some e => throw e
  | None => λ w, (Normal (table (sqlite w)), w)
  end.

(** [Database.load(path)] *)
Definition Database_load (path : string) : M World string :=
  match load_fault env with
  | Some e => throw e
  | None => ret path
  end.

(** *** The script *)

Definition dirPath : string := "Vault/Finance/Transactions".

Definition render_content (d : string) (de c : Z) (cr : string) : string :=
  "---" +:+ NL +:+ "debitor: " +:+ d +:+ NL
        +:+ "debit: " +:+ num_to_string de +:+ NL
        +:+ "credit: " +:+ num_to_string c +:+ NL
        +:+ "creditor: " +:+ cr +:+ NL +:+ "---" +:+ NL.

Open Scope js_scope.

Definition saveToLadger : M World unit :=
  w0 <- get ;;
  let content :=
    render_content (debitor w0) (debit w0) (credit w0) (creditor w0) in
  try_catch
    (iso <- new_Date_toISOString ;;
     let timestamp := replace_colon_dot iso in
     let filename := "ladger-entry-" +:+ timestamp +:+ ".md" in
     let fullPath := dirPath +:+ "/" +:+ filename in
     dirExists <- fs_exists dirPath ;;
     console_log ("Directory exists: " +:+ bool_to_string dirExists) ;;;
     (if negb dirExists
      then (console_log ("Creating directory: " +:+ dirPath) ;;;
            fs_mkdir dirPath)
      else ret tt) ;;;
     writeTextFile fullPath content ;;;
     console_log ("Saved ladger entry to " +:+ fullPath) ;;;
     conn <- db_value_method "execute" ;;
     w1 <- get ;;
     now <- new_Date_toISOString ;;
     execute_insert conn (debitor w1) (debit w1) (credit w1) (creditor w1)
                    now ;;;
     conn' <- db_value_method "select" ;;
     rows <- select_all conn' ;;
     modify (set_transactions rows) ;;;
     modify (set_debitor "") ;;;
     modify (set_debit 0) ;;;
     modify (set_credit 0) ;;;
     modify (set_creditor ""))
    (λ error, console_error "Error saving ladger entry:" error).

Definition updateDebitCreditValues (value : Z) : M World unit :=
  modify (set_credit (Z.abs value)) ;;;
  modify (set_debit (if decide (value > 0) then - value else value)) ;;;
  console_log (num_to_string value).

Definition onMounted : M World unit :=
  conn <- Database_load "sqlite:aurelio.db" ;;
  modify (set_db (Some conn)) ;;;
  conn' <- db_value_method "select" ;;
  rows <- select_all conn' ;;
  modify (set_transactions rows).

Close Scope js_scope.
End Ops.

(** *** Which step of [saveToLadger] throws

    The awaited calls of [saveToLadger], in program order, and the first of
    them that throws in a given environment and world, with the thrown
    value. The directory is created only when [exists] answered [false]. *)

Inductive Step := StepExists | StepMkdir | StepWrite | StepInsert | StepRefresh.

Definition null_execute : JsError :=
  "TypeError: Cannot read properties of null (reading 'execute')".

Definition first_failure (env : Env) (w : World) : option (Step * JsError) :=
  match exists_fault env with
  | Some e => Some (StepExists, e)
  | None =>
  match (if bool_decide (dirPath ∈ dirs w) then None else mkdir_fault env) with
  | Some e => Some (StepMkdir, e)
  | None =>
  match writeTextFile_fault env with
  | Some e => Some (StepWrite, e)
  | None =>
  match db w with
  | None => Some (StepInsert, null_execute)
  | Some _ =>
  match execute_fault env with
  | Some e => Some (StepInsert, e)
  | None =>
  match select_fault env with
  | Some e => Some (StepRefresh, e)
  | None => None
  end end end end end end.

Definition is_archive_step (s : Step) : bool :=
  match s with
  | StepExists | StepMkdir | StepWrite => true
  | StepInsert | StepRefresh => false
  end.

(** Steps 1-3 (render, ensure directory, write file) fail. *)
Definition archive_fails (env : Env) (w : World) : bool :=
  match first_failure env w with
  | Some (s, _) => is_archive_step s
  | None => false
  end.

(** The insert fails after the archival write succeeded. *)
Definition insert_fails (env : Env) (w : World) : bool :=
  match first_failure env w with
  | Some (StepInsert, _) => true
  | _ => false
  end.

Definition all_steps_succeed (env : Env) (w : World) : bool :=
  match first_failure env w with
  | Some _ => false
  | None => true
  end.

(** No plugin call rejects. *)
Definition fault_free (env : Env) : bool :=
  match exists_fault env, mkdir_fault env, writeTextFile_fault env,
        execute_fault env, select_fault env, load_fault env with
  | None, None, None, None, None, None => true
  | _, _, _, _, _, _ => false
  end.

(** The path [saveToLadger] writes to when started in [w]. *)
Definition archive_path (env : Env) (w : World) : string :=
  "Vault/Finance/Transactions/ladger-entry-"
    +:+ replace_colon_dot (clock env (ticks w)) +:+ ".md".

Definition form_fields (w : World) : string * Z * Z * string :=
  (debitor w, debit w, credit w, creditor w).

(** The same four columns of a stored row. *)
Definition row_payload (r : Row) : string * Z * Z * string :=
  (row_debitor r, row_debit r, row_credit r, row_creditor r).


Fixpoint no_colon_dot (s : string) : bool :=
  match s with
  | EmptyString => true
  | String c s' =>
      negb (Ascii.eqb c ":") && negb (Ascii.eqb c ".") && no_colon_dot s'
  end.

End AppHome.

(** ** The earlier, archive-only ledger view ([src/views/AppHome.vue]) *)

Module AppHomeArchiveOnly.
Import Js AppHome.

Section Ops.
Variable env : Env.

Definition dirPath : string := "Vault/Transactions".

Definition render_content (d : string) (de c : Z) (cr : string) : string :=
  "---debitor: " +:+ d +:+ NL
        +:+ "debit: " +:+ num_to_string de +:+ NL
        +:+ "credit: " +:+ num_to_string c +:+ NL
        +:+ "creditor: " +:+ cr +:+ NL +:+ "---" +:+ NL.

Open Scope js_scope.

Definition saveToLadger : M World unit :=
  w0 <- get ;;
  console_log ("Saving to ladger: { debitor: " +:+ debitor w0
               +:+ ", debit: " +:+ num_to_string (debit w0)
               +:+ ", credit: " +:+ num_to_string (credit w0)
               +:+ ", creditor: " +:+ creditor w0 +:+ " }") ;;;
  let content :=
    render_content (debitor w0) (debit w0) (credit w0) (creditor w0) in
  try_catch
    (iso <- new_Date_toISOString env ;;
     let timestamp := replace_colon_dot iso in
     let filename := "ladger-entry-" +:+ timestamp +:+ ".md" in
     let fullPath := dirPath +:+ "/" +:+ filename in
     dirExists <- fs_exists env dirPath ;;
     console_log ("Directory exists: " +:+ bool_to_string dirExists) ;;;
     (if negb dirExists
      then (console_log ("Creating directory: " +:+ dirPath) ;;;
            fs_mkdir env dirPath)
      else ret tt) ;;;
     writeTextFile env fullPath content ;;;
     console_log ("Saved ladger entry to " +:+ fullPath) ;;;
     modify (set_debitor "") ;;;
     modify (set_debit 0) ;;;
     modify (set_credit 0) ;;;
     modify (set_creditor ""))
    (λ error, console_error "Error saving ladger entry:" error).

Close Scope js_scope.
End Ops.

End AppHomeArchiveOnly.

(** ** Rust side: the migration aggregator *)

Module Migrations.

Inductive MigrationKind := Up | Down.

(** [tauri_plugin_sql::Migration]; [version] is an [i64]. *)
Record Migration := mkMigration {
  version : Z;
  description : string;
  sql : string;
  kind : MigrationKind
}.

(** A call either returns or unwinds with a panic message. *)
Inductive Outcome (A : Type) : Type :=
| Returned (a : A)
| Panicked (msg : string).
Arguments Returned {A} a.
Arguments Panicked {A} msg.

Module m20250115_000001_create_users.

Definition VERSION : Z := 20250115000001.
Definition DESCRIPTION : string := "create users table".

Definition SQL : string := "
CREATE TABLE IF NOT EXISTS users (
    id INTEGER PRIMARY KEY AUTOINCREMENT,

    -- Email as unique identifier (even for single-user, useful for exports/syncs)
    email TEXT UNIQUE,
    display_name TEXT,

    -- User preferences stored as JSON
    -- WHY JSON? Flexible for future settings without schema changes
    preferences TEXT DEFAULT '{}',

    -- Audit columns (see helpers.rs for explanation)
    created_at TEXT NOT NULL DEFAULT (datetime('now')),
    updated_at TEXT NOT NULL DEFAULT (datetime('now'))
);

-- Index for email lookups (even though UNIQUE creates one, being explicit is clearer)
CREATE INDEX IF NOT EXISTS idx_users_email ON users(email);
".

Definition migration : Migration :=
  {| version := VERSION; description := DESCRIPTION; sql := SQL; kind := Up |}.

End m20250115_000001_create_users.

(** [slice::sort_by_key]: a stable sort. Each element is placed in front of
    the first later element whose key is not smaller, so elements with equal
    keys keep their order. *)
Fixpoint insert_by_key {A} (key : A → Z) (x : A) (l : list A) : list A :=
  match l with
  | [] => [x]
  | y :: l' =>
      if decide (key x ≤ key y) then x :: y :: l'
      else y :: insert_by_key key x l'
  end.

Definition sort_by_key {A} (key : A → Z) (l : list A) : list A :=
  foldr (insert_by_key key) [] l.

(** [HashSet::insert]: whether the value was newly inserted, and the set. *)
Definition hash_set_insert (v : Z) (seen : gset Z) : bool * gset Z :=
  (bool_decide (v ∉ seen), {[v]} ∪ seen).

Definition duplicate_message (m : Migration) : string :=
  "Duplicate migration version: " +:+ pretty (version m)
    +:+ " (" +:+ description m +:+ ")".

(** The [for m in &migrations { assert!(seen.insert(m.version), ...) }]
    loop: the message of the first failing assertion, if any. *)
Fixpoint assert_no_duplicates (seen : gset Z) (migrations : list Migration)
  : option string :=
  match migrations with
  | [] => None
  | m :: rest =>
      let '(fresh, seen') := hash_set_insert (version m) seen in
      if fresh then assert_no_duplicates seen' rest
      else Some (duplicate_message m)
  end.

(** The body of [all_migrations] over the contents of its [vec![...]];
    [debug_assertions] tells whether the [#[cfg(debug_assertions)]] block is
    compiled in. *)
Definition all_migrations_from (debug_assertions : bool)
           (registered : list Migration) : Outcome (list Migration) :=
  let migrations := sort_by_key version registered in
  if debug_assertions then
    match assert_no_duplicates ∅ migrations with
    | Some msg => Panicked msg
    | None => Returned migrations
    end
  else Returned migrations.

Definition all_migrations (debug_assertions : bool)
  : Outcome (list Migration) :=
  all_migrations_from debug_assertions
                      [m20250115_000001_create_users.migration].

(** What [run] does with the migrations: a panic in [all_migrations] unwinds
    before the SQL plugin is built; otherwise the sequence is handed to
    [add_migrations], which applies it. *)
Inductive Startup :=
| AddMigrations (db_url : string) (migrations : list Migration)
| Unwound (msg : string).

Definition run_from (debug_assertions : bool) (registered : list Migration)
  : Startup :=
  match all_migrations_from debug_assertions registered with
  | Returned migrations => AddMigrations "sqlite:aurelio.db" migrations
  | Panicked msg => Unwound msg
  end.

Definition ascending (a b : Migration) : Prop := version a < version b.

(** [db/migrations/helpers.rs] *)
Module helpers.

Definition AUDIT_COLUMNS : string := "
    created_at TEXT NOT NULL DEFAULT (datetime('now')),
    updated_at TEXT NOT NULL DEFAULT (datetime('now'))
".

(** [format!(r#"... {table} ..."#, table = table_name)]: the name is spliced
    in verbatim at its three places. *)
Definition updated_at_trigger (table_name : string) : string :=
  "
CREATE TRIGGER IF NOT EXISTS trg_" +:+ table_name +:+ "_updated_at
AFTER UPDATE ON " +:+ table_name +:+ "
FOR EACH ROW
BEGIN
    UPDATE " +:+ table_name +:+ " SET updated_at = datetime('now') WHERE id = OLD.id;
END;
".

Definition MONEY_TYPE : string := "INTEGER NOT NULL DEFAULT 0".

End helpers.

(** Two registered descriptors share a version. *)
Definition shares_version (registered : list Migration) : Prop :=
  ∃ (i j : nat) (a b : Migration),
    i ≠ j ∧ registered !! i = Some a ∧ registered !! j = Some b
    ∧ version a = version b.

End Migrations.

(** ** Sample inputs *)

Module Samples.
Import Js AppHome Migrations.

Definition sample_clock (n : nat) : string :=
  match n with
  | O => "2025-01-15T10:20:30.123Z"
  | _ => "2025-01-15T10:20:30.456Z"
  end.

Definition env_ok : Env := mkEnv sample_clock None None None None None None.

Definition env_write_fails : Env :=
  mkEnv sample_clock None None (Some "forbidden path") None None None.

Definition env_execute_fails : Env :=
  mkEnv sample_clock None None None (Some "database is locked") None None.

Definition w_alice : World :=
  mkWorld "Alice" (-5000) 5000 "Bob" (Some "sqlite:aurelio.db") []
          ∅ ∅ (mkDatabase [] 0) [] 0.

Definition w_empty_form : World :=
  mkWorld "Alice" 0 0 "Bob" (Some "sqlite:aurelio.db") []
          ∅ ∅ (mkDatabase [] 0) [] 0.

Definition w_unmounted : World :=
  mkWorld "" 0 0 "" None [] ∅ ∅
          (mkDatabase [mkRow 1 "Alice" (-5000) 5000 "Bob" "2025-01-15T10:20:30.456Z"] 1)
          [] 0.

Definition env_select_fails : Env :=
  mkEnv sample_clock None None None None (Some "disk I/O error") None.

Definition env_load_fails : Env :=
  mkEnv sample_clock None None None None None (Some "unable to open database").

(** A clock that has not advanced between two saves. *)
Definition env_stuck_clock : Env :=
  mkEnv (λ _, "2025-01-15T10:20:30.123Z") None None None None None None.

Definition w_unmounted_alice : World :=
  mkWorld "Alice" (-5000) 5000 "Bob" None [] ∅ ∅ (mkDatabase [] 0) [] 0.

(** The world in which a second entry is typed in after the first save. *)
Definition w_carol_after_alice : World :=
  set_creditor "Dave"
    (set_credit 700
       (set_debit (-700)
          (set_debitor "Carol"
             (snd (AppHome.saveToLadger env_stuck_clock w_alice))))).

Definition mig (v : Z) (d : string) : Migration :=
  mkMigration v d "" Up.

Definition spec_example : list Migration :=
  [mig 20250201000001 "c"; mig 20250115000001 "a"; mig 20250115000002 "b"].

Definition dup_a : Migration := mig 20250115000001 "create users table".
Definition dup_b : Migration := mig 20250115000001 "create accounts table".

End Samples.

Import Js AppHome Migrations Samples.

(** ** The ledger view: proofs *)

Ltac run_script :=
  cbv [AppHome.saveToLadger updateDebitCreditValues onMounted
       bind ret get modify try_catch throw
       console_log console_error new_Date_toISOString fs_exists fs_mkdir
       writeTextFile db_value_method execute_insert select_all Database_load
       set_debitor set_debit set_credit set_creditor set_db set_transactions
       set_files set_dirs set_sqlite set_console set_ticks
       debitor debit credit creditor db transactions files dirs sqlite
       console ticks form_fields archive_path
       first_failure archive_fails insert_fails all_steps_succeed
       is_archive_step
       clock exists_fault mkdir_fault writeTextFile_fault execute_fault
       select_fault load_fault fst snd negb] in *.

(** Split [env] and [w] into their fields and follow every path through
    the script. *)
Ltac each_path env w :=
  destruct env as [clk fe fm fw fx fs fl];
  destruct w as [d de c cr h tx fi ds s co t];
  destruct fe, fm, fw, fx, fs, h;
  run_script;
  destruct (bool_decide (AppHome.dirPath ∈ ds)) eqn:Hdir;
  cbv beta iota in *;
  try discriminate.

Lemma full_path_eq ts :
  AppHome.dirPath +:+ "/" +:+ "ladger-entry-" +:+ ts +:+ ".md"
  = "Vault/Finance/Transactions/ladger-entry-" +:+ ts +:+ ".md".
Proof. reflexivity. Qed.

Lemma replace_colon_dot_safe s : no_colon_dot (replace_colon_dot s) = true.
Proof.
  induction s as [|ch s IH]; [reflexivity|].
  cbn [replace_colon_dot no_colon_dot]. rewrite IH.
  destruct (Ascii.eqb ch ":") eqn:E1; [reflexivity|].
  destruct (Ascii.eqb ch ".") eqn:E2; [reflexivity|].
  cbn [orb]. rewrite E1, E2. reflexivity.
Qed.

Lemma saveToLadger_returns_normally env w :
  fst (AppHome.saveToLadger env w) = Normal tt.
Proof. each_path env w; reflexivity. Qed.

(** [first_failure] names the step whose throw the script catches: the
    handler logs exactly that value, and when no step fails no error is
    logged at all. *)
Lemma first_failure_is_caught (env : Env) (w : World) :
  let w' := snd (AppHome.saveToLadger env w) in
  match first_failure env w with
  | Some (_, e) =>
      last (console w') = Some (ConsoleError "Error saving ladger entry:" e)
  | None =>
      ∃ path, console w'
      = (console w
           ++ [ConsoleLog ("Directory exists: "
                             +:+ bool_to_string
                                   (bool_decide (AppHome.dirPath ∈ dirs w)))]
           ++ (if bool_decide (AppHome.dirPath ∈ dirs w) then []
               else [ConsoleLog ("Creating directory: " +:+ AppHome.dirPath)])
           ++ [ConsoleLog ("Saved ladger entry to " +:+ path)])%list
  end.
Proof.
  cbv zeta. each_path env w; try apply last_snoc.
  all: eexists; rewrite <- ?(assoc_L (++)); reflexivity.
Qed.

(** The archival steps fail exactly when one of the three file-system calls
    rejects, [mkdir] counting only when the directory is missing. *)
Lemma archive_fails_iff (env : Env) (w : World) :
  (archive_fails env w = true)
  ↔ (is_Some (exists_fault env)
     ∨ ((AppHome.dirPath ∉ dirs w) ∧ is_Some (mkdir_fault env))
     ∨ is_Some (writeTextFile_fault env)).
Proof.
  destruct env as [clk fe fm fw fx fs fl].
  destruct w as [d de c cr h tx fi ds s co t].
  run_script. rewrite <- !not_eq_None_Some.
  case_bool_decide as Hdir; destruct fe, fm, fw, h, fx, fs;
    cbv beta iota; split; intros Hyp;
    try discriminate; try reflexivity; intuition congruence.
Qed.

(** Every step succeeds exactly when the connection is loaded and none of
    the calls that run rejects. *)
Lemma all_steps_succeed_iff (env : Env) (w : World) :
  (all_steps_succeed env w = true)
  ↔ (exists_fault env = None
     ∧ (AppHome.dirPath ∈ dirs w ∨ mkdir_fault env = None)
     ∧ writeTextFile_fault env = None
     ∧ db w ≠ None
     ∧ execute_fault env = None
     ∧ select_fault env = None).
Proof.
  destruct env as [clk fe fm fw fx fs fl].
  destruct w as [d de c cr h tx fi ds s co t].
  run_script.
  case_bool_decide as Hdir; destruct fe, fm, fw, h, fx, fs;
    cbv beta iota; split; intros Hyp;
    try discriminate; try reflexivity; intuition congruence.
Qed.



(** C2. When the archival steps (existence check, directory creation, file
    write) fail, [saveToLadger] leaves the database as it was; and whenever
    the database has changed, the archival steps did not fail and the file
    is in place with the rendered entry. *)
Theorem saveToLadger_archive_failure_leaves_database (env : Env) (w : World) :
  let w' := snd (AppHome.saveToLadger env w) in
  (archive_fails env w = true → sqlite w' = sqlite w)
  ∧ (sqlite w' ≠ sqlite w →
     archive_fails env w = false
     ∧ files w' !! archive_path env w
       = Some (AppHome.render_content (debitor w) (debit w) (credit w)
                                      (creditor w))).
Proof.
  cbv zeta. split.
  - intros Hf. each_path env w; reflexivity.
  - intros Hne. each_path env w;
      try (exfalso; apply Hne; reflexivity);
      (split; [reflexivity|]); rewrite full_path_eq; apply lookup_insert_eq.
Qed.

Lemma saveToLadger_archive_failure_leaves_database_witness :
  sqlite (snd (AppHome.saveToLadger env_write_fails w_alice)) = sqlite w_alice.
Proof.
  apply (proj1 (saveToLadger_archive_failure_leaves_database
                  env_write_fails w_alice)).
  reflexivity.
Defined.

(** C10. [saveToLadger] always returns normally; when any awaited step
    throws, the four form fields keep the values they had on entry, and
    they are reset to ['', 0, 0, ''] when every step succeeds. *)
Theorem saveToLadger_keeps_form_on_failure (env : Env) (w : World) :
  let w' := snd (AppHome.saveToLadger env w) in
  fst (AppHome.saveToLadger env w) = Normal tt
  ∧ (all_steps_succeed env w = false → form_fields w' = form_fields w)
  ∧ (all_steps_succeed env w = true → form_fields w' = ("", 0, 0, "")).
Proof.
  cbv zeta. split; [apply saveToLadger_returns_normally|].
  split; intros Hs; each_path env w; reflexivity.
Qed.

Lemma saveToLadger_keeps_form_on_failure_witness :
  form_fields (snd (AppHome.saveToLadger env_execute_fails w_alice))
  = ("Alice", -5000, 5000, "Bob")
  ∧ form_fields (snd (AppHome.saveToLadger env_ok w_alice)) = ("", 0, 0, "").
Proof.
  split.
  - apply (proj1 (proj2 (saveToLadger_keeps_form_on_failure
                           env_execute_fails w_alice))).
    reflexivity.
  - apply (proj2 (proj2 (saveToLadger_keeps_form_on_failure env_ok w_alice))).
    reflexivity.
Defined.

(** C5, as stated, fails: a failing insert after a successful archival write
    reaches the caller as a normal completion, the same completion a failing
    archival write and a fully successful run produce. *)
Lemma insert_failure_not_surfaced :
  insert_fails env_execute_fails w_alice = true
  ∧ archive_fails env_write_fails w_alice = true
  ∧ all_steps_succeed env_ok w_alice = true
  ∧ fst (AppHome.saveToLadger env_execute_fails w_alice) = Normal tt
  ∧ fst (AppHome.saveToLadger env_write_fails w_alice) = Normal tt
  ∧ fst (AppHome.saveToLadger env_ok w_alice) = Normal tt.
Proof. repeat split; vm_compute; reflexivity. Qed.

(** C5, amended. Every failure of the dual write is caught inside
    [saveToLadger]: the call completes normally, and the value thrown by
    the failing step is the last thing written to the console, as
    [console.error("Error saving ladger entry:", error)]. When the failing
    step is the insert, the archival file is in place and the database is
    unchanged. *)
Theorem saveToLadger_logs_failure
        (env : Env) (w : World) (s : Step) (e : JsError) :
  first_failure env w = Some (s, e) →
  let w' := snd (AppHome.saveToLadger env w) in
  fst (AppHome.saveToLadger env w) = Normal tt
  ∧ last (console w') = Some (ConsoleError "Error saving ladger entry:" e)
  ∧ (s = StepInsert →
     sqlite w' = sqlite w
     ∧ files w' !! archive_path env w
       = Some (AppHome.render_content (debitor w) (debit w) (credit w)
                                      (creditor w))).
Proof.
  intros Hf. cbv zeta. split; [apply saveToLadger_returns_normally|].
  revert Hf. rename s into st.
  each_path env w; intros Hf; inversion Hf; subst;
    (split; [apply last_snoc|]); intros Hst; try discriminate;
    (split; [reflexivity|]); rewrite full_path_eq; apply lookup_insert_eq.
Qed.

Lemma saveToLadger_logs_failure_witness :
  let w' := snd (AppHome.saveToLadger env_execute_fails w_alice) in
  fst (AppHome.saveToLadger env_execute_fails w_alice) = Normal tt
  ∧ last (console w')
    = Some (ConsoleError "Error saving ladger entry:" "database is locked").
Proof.
  destruct (saveToLadger_logs_failure env_execute_fails w_alice
              StepInsert "database is locked") as (Hr & Hl & _);
    [reflexivity|].
  split; [exact Hr | exact Hl].
Defined.

(** C4, as stated, fails: a zero magnitude is entered without any error,
    and saving it writes the archival file and inserts the row. *)
Lemma zero_amount_is_recorded :
  let w1 := snd (updateDebitCreditValues 0 w_empty_form) in
  let w2 := snd (AppHome.saveToLadger env_ok w1) in
  fst (updateDebitCreditValues 0 w_empty_form) = Normal tt
  ∧ fst (AppHome.saveToLadger env_ok w1) = Normal tt
  ∧ files w2
      !! "Vault/Finance/Transactions/ladger-entry-2025-01-15T10-20-30-123Z.md"
    = Some "---
debitor: Alice
debit: 0
credit: 0
creditor: Bob
---
"
  ∧ table (sqlite w2)
    = [mkRow 1 "Alice" 0 0 "Bob" "2025-01-15T10:20:30.456Z"].
Proof. repeat split; vm_compute; reflexivity. Qed.

(** C4, amended. For [m = 0] entry construction performs no validation: it
    completes normally with [credit = 0] and [debit = 0]; and the dual
    write treats such an entry like any other: when its steps succeed it
    writes the archival file and inserts a row, both with debit 0 and
    credit 0. *)
Theorem zero_amount_not_rejected (env : Env) (w : World) :
  let w1 := snd (updateDebitCreditValues 0 w) in
  let w2 := snd (AppHome.saveToLadger env w1) in
  fst (updateDebitCreditValues 0 w) = Normal tt
  ∧ credit w1 = 0 ∧ debit w1 = 0
  ∧ (all_steps_succeed env w1 = true →
     files w2 !! archive_path env w1
     = Some (AppHome.render_content (debitor w) 0 0 (creditor w))
     ∧ table (sqlite w2)
       = (table (sqlite w)
            ++ [mkRow (last_id (sqlite w) + 1) (debitor w) 0 0 (creditor w)
                      (clock env (S (ticks w)))])%list).
Proof.
  cbv zeta. do 3 (split; [destruct w; reflexivity|]).
  intros Hs. split; revert Hs.
  - each_path env w; intros _; rewrite full_path_eq; apply lookup_insert_eq.
  - each_path env w; intros _; reflexivity.
Qed.

Lemma zero_amount_not_rejected_witness :
  let w1 := snd (updateDebitCreditValues 0 w_empty_form) in
  table (sqlite (snd (AppHome.saveToLadger env_ok w1)))
  = [mkRow 1 "Alice" 0 0 "Bob" "2025-01-15T10:20:30.456Z"].
Proof.
  destruct (zero_amount_not_rejected env_ok w_empty_form)
    as (_ & _ & _ & Hs).
  destruct Hs as [_ Ht]; [reflexivity|].
  exact Ht.
Defined.









(** ** The migration aggregator: proofs *)

Section SortByKey.
Context {A : Type} (key : A → Z).

Local Abbreviation le_key := (λ a b : A, key a ≤ key b).
Local Abbreviation lt_key := (λ a b : A, key a < key b).

Lemma insert_by_key_perm x l : insert_by_key key x l ≡ₚ x :: l.
Proof.
  induction l as [|y l IH]; cbn [insert_by_key]; [reflexivity|].
  case_decide; [reflexivity|].
  rewrite IH. apply Permutation_swap.
Qed.

Lemma sort_by_key_perm l : sort_by_key key l ≡ₚ l.
Proof.
  induction l as [|x l IH]; [reflexivity|].
  cbn [sort_by_key foldr]. fold (sort_by_key key l).
  rewrite insert_by_key_perm, IH. reflexivity.
Qed.

Lemma insert_by_key_sorted x l :
  StronglySorted le_key l → StronglySorted le_key (insert_by_key key x l).
Proof.
  induction 1 as [|y l Hl IH Hy]; cbn [insert_by_key].
  - repeat constructor.
  - case_decide as Hxy.
    + constructor; [constructor; assumption|].
      constructor; [exact Hxy|].
      eapply Forall_impl; [exact Hy|]. cbn. intros; lia.
    + constructor; [exact IH|].
      rewrite insert_by_key_perm. constructor; [lia | exact Hy].
Qed.

Lemma sort_by_key_sorted l : StronglySorted le_key (sort_by_key key l).
Proof.
  induction l as [|x l IH]; [constructor|].
  cbn [sort_by_key foldr]. apply insert_by_key_sorted, IH.
Qed.

(** Stability: among the elements with one and the same key, the order of
    the input is kept. *)
Lemma insert_by_key_stable v x l :
  filter (λ a, key a = v) (insert_by_key key x l)
  = filter (λ a, key a = v) (x :: l).
Proof.
  induction l as [|y l IH]; cbn [insert_by_key]; [reflexivity|].
  case_decide as Hxy; [reflexivity|].
  rewrite (filter_cons _ y), IH, !filter_cons.
  repeat case_decide; try reflexivity; lia.
Qed.

Lemma sort_by_key_stable v l :
  filter (λ a, key a = v) (sort_by_key key l) = filter (λ a, key a = v) l.
Proof.
  induction l as [|x l IH]; [reflexivity|].
  cbn [sort_by_key foldr]. fold (sort_by_key key l).
  rewrite insert_by_key_stable, !filter_cons, IH. reflexivity.
Qed.

Lemma NoDup_key_inj l x y :
  NoDup (key <$> l) → x ∈ l → y ∈ l → key x = key y → x = y.
Proof.
  induction l as [|z l IH]; intros Hnd Hx Hy Hk; [inversion Hx|].
  rewrite fmap_cons in Hnd. apply NoDup_cons in Hnd as [Hz Hnd].
  apply elem_of_cons in Hx as [->|Hx], Hy as [->|Hy]; [reflexivity| | |].
  - exfalso. apply Hz. rewrite Hk. apply list_elem_of_fmap_2. exact Hy.
  - exfalso. apply Hz. rewrite <- Hk. apply list_elem_of_fmap_2. exact Hx.
  - apply IH; assumption.
Qed.

Lemma sorted_distinct_strict l :
  NoDup (key <$> l) → StronglySorted le_key l → StronglySorted lt_key l.
Proof.
  induction l as [|x l IH]; intros Hnd Hs; [constructor|].
  rewrite fmap_cons in Hnd. apply NoDup_cons in Hnd as [Hx Hnd].
  apply StronglySorted_cons in Hs as [Hle Hs].
  constructor; [apply IH; assumption|].
  rewrite Forall_forall in Hle |- *. intros y Hy.
  specialize (Hle y Hy). cbn in Hle.
  assert (key x ≠ key y); [|lia].
  intros Heq. apply Hx. rewrite Heq. apply list_elem_of_fmap_2. exact Hy.
Qed.

(** With pairwise distinct keys the result does not depend on the order
    of the input. *)
Lemma sort_by_key_perm_invariant l1 l2 :
  NoDup (key <$> l1) → l2 ≡ₚ l1 → sort_by_key key l2 = sort_by_key key l1.
Proof.
  intros Hnd Hp.
  apply (StronglySorted_unique_strong le_key);
    [| apply sort_by_key_sorted | apply sort_by_key_sorted
     | rewrite !sort_by_key_perm; exact Hp].
  intros x y Hx Hy Hxy Hyx.
  rewrite sort_by_key_perm in Hx, Hy. rewrite Hp in Hx.
  apply (NoDup_key_inj l1); [assumption..|]. cbn in *. lia.
Qed.

End SortByKey.

Lemma assert_no_duplicates_passes seen ms :
  assert_no_duplicates seen ms = None
  ↔ NoDup (version <$> ms) ∧ ∀ m, m ∈ ms → version m ∉ seen.
Proof.
  revert seen. induction ms as [|m ms IH]; intros seen.
  - cbn. split; [|reflexivity]. intros _. split; [constructor|].
    intros m Hm. inversion Hm.
  - cbn [assert_no_duplicates hash_set_insert]. rewrite fmap_cons.
    case_bool_decide as Hm.
    + rewrite IH, NoDup_cons. split.
      * intros [Hnd Hfresh]. split; [split; [|exact Hnd]|].
        -- intros Hin. apply list_elem_of_fmap in Hin as (m' & Hv & Hm').
           apply (Hfresh m' Hm'), elem_of_union_l, elem_of_singleton.
           congruence.
        -- intros m' [->|Hm']%elem_of_cons; [exact Hm|].
           intros Hin. apply (Hfresh m' Hm'), elem_of_union_r, Hin.
      * intros [[Hnotin Hnd] Hfresh]. split; [exact Hnd|].
        intros m' Hm' [Heq%elem_of_singleton|Hin]%elem_of_union.
        -- apply Hnotin. rewrite <- Heq. apply list_elem_of_fmap_2. exact Hm'.
        -- apply (Hfresh m'); [right; exact Hm' | exact Hin].
    + split; [discriminate|]. intros [_ Hfresh].
      exfalso. apply (Hfresh m); [left|].
      destruct (decide (version m ∈ seen)); [assumption | contradiction].
Qed.

Lemma assert_no_duplicates_fails seen ms msg :
  assert_no_duplicates seen ms = Some msg →
  ∃ l1 m l2, ms = (l1 ++ m :: l2)%list ∧ msg = duplicate_message m
             ∧ (version m ∈ seen ∨ version m ∈ version <$> l1).
Proof.
  revert seen. induction ms as [|m ms IH]; intros seen; [discriminate|].
  cbn [assert_no_duplicates hash_set_insert].
  case_bool_decide as Hm.
  - intros (l1 & m' & l2 & -> & -> & Hin)%IH.
    exists (m :: l1), m', l2. split; [reflexivity|]. split; [reflexivity|].
    rewrite fmap_cons.
    destruct Hin as [[Heq%elem_of_singleton|Hin]%elem_of_union|Hin].
    + right. rewrite Heq. left.
    + left. exact Hin.
    + right. right. exact Hin.
  - intros [= <-]. exists [], m, ms. split; [reflexivity|].
    split; [reflexivity|]. left.
    destruct (decide (version m ∈ seen)); [assumption | contradiction].
Qed.

Lemma shares_version_not_NoDup registered :
  shares_version registered → ¬ NoDup (version <$> registered).
Proof.
  intros (i & j & a & b & Hij & Ha & Hb & Hv) Hnd.
  apply Hij. eapply NoDup_lookup; [exact Hnd | |].
  - rewrite list_lookup_fmap, Ha. reflexivity.
  - rewrite list_lookup_fmap, Hb, Hv. reflexivity.
Qed.

(** The aggregator as shipped, with its single registered migration. *)
Lemma all_migrations_as_shipped (debug_assertions : bool) :
  all_migrations debug_assertions
  = Returned [m20250115_000001_create_users.migration].
Proof. destruct debug_assertions; vm_compute; reflexivity. Qed.

(** C6. For descriptors with pairwise distinct versions, [all_migrations]
    returns, with or without debug assertions, exactly the registered
    descriptors in strictly ascending order of version, and the same
    sequence for every order of registration. *)
Theorem all_migrations_sorted_any_order
        (debug_assertions : bool) (registered : list Migration) :
  NoDup (version <$> registered) →
  ∃ migrations,
    all_migrations_from debug_assertions registered = Returned migrations
    ∧ migrations ≡ₚ registered
    ∧ StronglySorted ascending migrations
    ∧ ∀ registered',
        registered' ≡ₚ registered →
        all_migrations_from debug_assertions registered' = Returned migrations.
Proof.
  intros Hnd.
  assert (Hret : ∀ regs, regs ≡ₚ registered →
            all_migrations_from debug_assertions regs
            = Returned (sort_by_key version registered)).
  { intros regs Hp. unfold all_migrations_from. cbv zeta.
    rewrite (sort_by_key_perm_invariant version registered regs Hnd Hp).
    destruct debug_assertions; [|reflexivity].
    destruct (assert_no_duplicates ∅ (sort_by_key version registered))
      as [msg|] eqn:Hchk; [|reflexivity].
    assert (Hnone : assert_no_duplicates ∅ (sort_by_key version registered)
                    = None); [|congruence].
    apply assert_no_duplicates_passes.
    split; [|intros ? _; apply not_elem_of_empty].
    rewrite (sort_by_key_perm version registered). exact Hnd. }
  exists (sort_by_key version registered).
  split; [apply Hret; reflexivity|].
  split; [apply sort_by_key_perm|].
  split; [|exact Hret].
  apply (sorted_distinct_strict version); [|apply sort_by_key_sorted].
  rewrite (sort_by_key_perm version registered). exact Hnd.
Qed.

Lemma all_migrations_sorted_any_order_witness :
  all_migrations_from true spec_example
  = Returned [mig 20250115000001 "a"; mig 20250115000002 "b";
              mig 20250201000001 "c"].
Proof.
  assert (Hnd : NoDup (version <$> spec_example)).
  { apply (bool_decide_unpack _). vm_compute. exact I. }
  destruct (all_migrations_sorted_any_order true spec_example Hnd)
    as (ms & Hret & _).
  rewrite Hret. vm_compute in Hret. exact (eq_sym Hret).
Defined.

(** C3, as stated, fails: without debug assertions two descriptors with the
    same version pass through [all_migrations] and reach [add_migrations]. *)
Lemma release_build_keeps_duplicates :
  version dup_a = version dup_b
  ∧ all_migrations_from false [dup_a; dup_b] = Returned [dup_a; dup_b]
  ∧ run_from false [dup_a; dup_b]
    = AddMigrations "sqlite:aurelio.db" [dup_a; dup_b].
Proof. repeat split. Qed.

(** C3, amended. When two registered descriptors share a version, a build
    with debug assertions panics inside [all_migrations] with
    [Duplicate migration version: <version> (<description>)] for a
    descriptor whose version is registered more than once, so [run] unwinds
    before [add_migrations] receives anything; a build without debug
    assertions performs no check and hands over the sorted sequence,
    duplicates included. *)
Theorem all_migrations_duplicate_version (registered : list Migration) :
  shares_version registered →
  (∃ m, m ∈ registered
        ∧ (1 < length (filter (λ x, version x = version m) registered))%nat
        ∧ all_migrations_from true registered
          = Panicked (duplicate_message m)
        ∧ run_from true registered = Unwound (duplicate_message m))
  ∧ all_migrations_from false registered
    = Returned (sort_by_key version registered)
  ∧ run_from false registered
    = AddMigrations "sqlite:aurelio.db" (sort_by_key version registered).
Proof.
  intros Hdup%shares_version_not_NoDup.
  split; [|split; reflexivity].
  unfold run_from, all_migrations_from. cbv zeta.
  destruct (assert_no_duplicates ∅ (sort_by_key version registered))
    as [msg|] eqn:Hchk.
  - apply assert_no_duplicates_fails in Hchk
      as (l1 & m & l2 & Hsplit & -> & [Hin|Hin]);
      [apply not_elem_of_empty in Hin; contradiction|].
    pose proof (sort_by_key_perm version registered) as Hp.
    exists m. split; [|split; [|split; reflexivity]].
    + rewrite <- Hp, Hsplit. apply elem_of_app. right. left.
    + rewrite <- Hp, Hsplit, filter_app, filter_cons, length_app.
      rewrite decide_True by reflexivity.
      apply list_elem_of_fmap in Hin as (m' & Hv & Hm').
      assert (Hm'' : m' ∈ filter (λ x, version x = version m) l1).
      { apply list_elem_of_filter. split; [symmetry; exact Hv | exact Hm']. }
      destruct (filter (λ x, version x = version m) l1);
        [inversion Hm'' | cbn; lia].
  - exfalso. apply Hdup.
    apply assert_no_duplicates_passes in Hchk as [Hnd _].
    rewrite (sort_by_key_perm version registered) in Hnd. exact Hnd.
Qed.

Lemma all_migrations_duplicate_version_witness :
  ∃ m, all_migrations_from true [dup_a; dup_b] = Panicked (duplicate_message m).
Proof.
  assert (Hs : shares_version [dup_a; dup_b]).
  { exists 0%nat, 1%nat, dup_a, dup_b. repeat split. lia. }
  destruct (all_migrations_duplicate_version [dup_a; dup_b] Hs)
    as [(m & _ & _ & Hp & _) _].
  exists m. exact Hp.
Defined.

(** ** The archive-only view

    The earlier variant of the view records nothing in the database; it
    writes under [Vault/Transactions], and its opening delimiter runs into
    the first key. *)
Lemma archive_only_variant_output :
  let w' := snd (AppHomeArchiveOnly.saveToLadger env_ok w_alice) in
  map_to_list (files w')
  = [("Vault/Transactions/ladger-entry-2025-01-15T10-20-30-123Z.md",
      "---debitor: Alice
debit: -5000
credit: 5000
creditor: Bob
---
")]
  ∧ sqlite w' = sqlite w_alice
  ∧ form_fields w' = ("", 0, 0, "").
Proof. repeat split; vm_compute; reflexivity. Qed.

(** ** Further properties of the ledger view *)


(** What a run leaves behind once the archival steps and the insert have
    gone through, whether or not the refresh succeeds. *)
Lemma saveToLadger_inserted_state (env : Env) (w : World) :
  archive_fails env w = false →
  insert_fails env w = false →
  let w' := snd (AppHome.saveToLadger env w) in
  sqlite w'
  = insert_row (debitor w) (debit w) (credit w) (creditor w)
               (clock env (S (ticks w))) (sqlite w)
  ∧ db w' = db w
  ∧ ticks w' = S (S (ticks w)).
Proof.
  intros Ha Hi. cbv zeta. revert Ha Hi.
  each_path env w; intros _ _; repeat split.
Qed.

Lemma saveToLadger_written_files (env : Env) (w : World) :
  archive_fails env w = false →
  files (snd (AppHome.saveToLadger env w))
  = <[archive_path env w :=
        AppHome.render_content (debitor w) (debit w) (credit w) (creditor w)]>
      (files w).
Proof.
  intros Ha. revert Ha. each_path env w; intros _; reflexivity.
Qed.

Lemma saveToLadger_failed_state (env : Env) (w : World) :
  all_steps_succeed env w = false →
  let w' := snd (AppHome.saveToLadger env w) in
  form_fields w' = form_fields w ∧ transactions w' = transactions w.
Proof.
  intros Hs. cbv zeta. revert Hs. each_path env w; intros _; split; reflexivity.
Qed.

Lemma saveToLadger_succeeded_state (env : Env) (w : World) :
  all_steps_succeed env w = true →
  let w' := snd (AppHome.saveToLadger env w) in
  form_fields w' = ("", 0, 0, "") ∧ transactions w' = table (sqlite w').
Proof.
  intros Hs. cbv zeta. revert Hs. each_path env w; intros _; split; reflexivity.
Qed.

Lemma first_failure_cases (env : Env) (w : World) :
  match first_failure env w with
  | Some (s, _) =>
      all_steps_succeed env w = false
      ∧ archive_fails env w = is_archive_step s
      ∧ insert_fails env w
        = match s with StepInsert => true | _ => false end
  | None =>
      all_steps_succeed env w = true ∧ archive_fails env w = false
      ∧ insert_fails env w = false
  end.
Proof.
  unfold all_steps_succeed, archive_fails, insert_fails.
  destruct (first_failure env w) as [[[] e]|]; repeat split.
Qed.

(** X2. In every execution, failing or not, [saveToLadger] only ever
    appends: the table keeps its rows and gains at most one at the end, no
    directory disappears, no file other than the one at the entry's own
    path changes, and the connection ref is left alone. *)
Theorem saveToLadger_append_only (env : Env) (w : World) :
  let w' := snd (AppHome.saveToLadger env w) in
  (table (sqlite w') = table (sqlite w)
   ∨ ∃ row, table (sqlite w') = (table (sqlite w) ++ [row])%list)
  ∧ dirs w ⊆ dirs w'
  ∧ (∀ p, p ≠ archive_path env w → files w' !! p = files w !! p)
  ∧ db w' = db w.
Proof.
  cbv zeta. each_path env w.
  all: split; [first [left; reflexivity | right; eexists; reflexivity]|].
  all: split;
    [first [reflexivity
           | intros x Hx; apply elem_of_union_l, elem_of_union_l, Hx]|].
  all: split; [|reflexivity].
  all: intros p Hp; first [reflexivity | apply lookup_insert_ne;
         intros Heq; apply Hp; rewrite <- Heq; reflexivity].
Qed.

(** X3. When only the refresh fails, the entry is already stored: the row
    is in the table and the file is written, yet the form keeps its
    values, the displayed list is not updated, and the refresh error is
    logged. *)
Theorem saveToLadger_refresh_failure (env : Env) (w : World) (e : JsError) :
  first_failure env w = Some (StepRefresh, e) →
  let w' := snd (AppHome.saveToLadger env w) in
  table (sqlite w')
  = (table (sqlite w)
       ++ [mkRow (last_id (sqlite w) + 1) (debitor w) (debit w) (credit w)
                 (creditor w) (clock env (S (ticks w)))])%list
  ∧ files w' !! archive_path env w
    = Some (AppHome.render_content (debitor w) (debit w) (credit w)
                                   (creditor w))
  ∧ transactions w' = transactions w
  ∧ form_fields w' = form_fields w
  ∧ last (console w') = Some (ConsoleError "Error saving ladger entry:" e).
Proof.
  intros Hf. cbv zeta. revert Hf.
  each_path env w; intros [= <-].
  all: split; [reflexivity|].
  all: split; [rewrite full_path_eq; apply lookup_insert_eq|].
  all: repeat split; apply last_snoc.
Qed.

Lemma saveToLadger_refresh_failure_witness :
  let w' := snd (AppHome.saveToLadger env_select_fails w_alice) in
  table (sqlite w')
  = [mkRow 1 "Alice" (-5000) 5000 "Bob" "2025-01-15T10:20:30.456Z"]
  ∧ transactions w' = []
  ∧ form_fields w' = ("Alice", -5000, 5000, "Bob").
Proof.
  destruct (saveToLadger_refresh_failure env_select_fails w_alice
              "disk I/O error" eq_refl) as (Ht & _ & Htx & Hform & _).
  split; [exact Ht|]. split; [exact Htx | exact Hform].
Defined.

(** X4. Saving again after a failed refresh, with the form as it was left,
    stores the entry a second time: the table ends with two rows of the
    same debitor, debit, credit and creditor under consecutive ids. *)
Theorem saveToLadger_retry_duplicates
        (env1 env2 : Env) (w : World) (e : JsError) :
  first_failure env1 w = Some (StepRefresh, e) →
  all_steps_succeed env2 (snd (AppHome.saveToLadger env1 w)) = true →
  let w2 := snd (AppHome.saveToLadger env2
                   (snd (AppHome.saveToLadger env1 w))) in
  ∃ r1 r2 : Row,
    table (sqlite w2) = (table (sqlite w) ++ [r1; r2])%list
    ∧ row_payload r1 = form_fields w
    ∧ row_payload r2 = form_fields w
    ∧ row_id r2 = row_id r1 + 1
    ∧ transactions w2 = table (sqlite w2).
Proof.
  intros Hf Hs. cbv zeta.
  pose proof (first_failure_cases env1 w) as H1. rewrite Hf in H1.
  destruct H1 as (Hs1 & Ha1 & Hi1).
  destruct (saveToLadger_inserted_state env1 w Ha1 Hi1) as (Hq1 & _ & _).
  destruct (saveToLadger_failed_state env1 w Hs1) as (Hform & _).
  set (w1 := snd (AppHome.saveToLadger env1 w)) in *.
  pose proof (first_failure_cases env2 w1) as H2.
  unfold all_steps_succeed in Hs.
  destruct (first_failure env2 w1) as [[? ?]|] eqn:Hf2; [discriminate|].
  destruct H2 as (Hs2 & Ha2 & Hi2).
  destruct (saveToLadger_inserted_state env2 w1 Ha2 Hi2) as (Hq2 & _ & _).
  destruct (saveToLadger_succeeded_state env2 w1 Hs2) as (_ & Htx).
  rewrite Htx, Hq2, Hq1. cbn [insert_row table last_id].
  unfold form_fields in Hform. injection Hform as -> -> -> ->.
  eexists _, _. rewrite <- (assoc_L (++)).
  repeat split; reflexivity.
Qed.

Lemma saveToLadger_retry_duplicates_witness :
  ∃ r1 r2 : Row,
    table (sqlite (snd (AppHome.saveToLadger env_ok
                          (snd (AppHome.saveToLadger env_select_fails
                                                     w_alice)))))
    = [r1; r2]
    ∧ row_payload r1 = ("Alice", -5000, 5000, "Bob")
    ∧ row_payload r2 = ("Alice", -5000, 5000, "Bob").
Proof.
  destruct (saveToLadger_retry_duplicates env_select_fails env_ok w_alice
              "disk I/O error" eq_refl eq_refl)
    as (r1 & r2 & Ht & H1 & H2 & _).
  exists r1, r2. split; [exact Ht|]. split; [exact H1 | exact H2].
Defined.

(** X5. Saving before [onMounted] has loaded the connection: the archival
    file is written, then reading [execute] off the [null] ref throws; the
    TypeError is logged, nothing is inserted, the form keeps its values,
    and the clock has been read only once. *)
Theorem saveToLadger_before_mount (env : Env) (w : World) :
  db w = None →
  archive_fails env w = false →
  let w' := snd (AppHome.saveToLadger env w) in
  files w' !! archive_path env w
  = Some (AppHome.render_content (debitor w) (debit w) (credit w) (creditor w))
  ∧ sqlite w' = sqlite w
  ∧ form_fields w' = form_fields w
  ∧ last (console w')
    = Some (ConsoleError "Error saving ladger entry:"
              "TypeError: Cannot read properties of null (reading 'execute')")
  ∧ ticks w' = S (ticks w).
Proof.
  intros Hdb Ha. cbv zeta. revert Hdb Ha.
  each_path env w; intros _ _.
  all: split; [rewrite full_path_eq; apply lookup_insert_eq|].
  all: repeat split; apply last_snoc.
Qed.

Lemma saveToLadger_before_mount_witness :
  let w' := snd (AppHome.saveToLadger env_ok w_unmounted_alice) in
  sqlite w' = mkDatabase [] 0
  ∧ form_fields w' = ("Alice", -5000, 5000, "Bob")
  ∧ ticks w' = 1%nat.
Proof.
  destruct (saveToLadger_before_mount env_ok w_unmounted_alice
              eq_refl eq_refl) as (_ & Hq & Hform & _ & Ht).
  split; [exact Hq|]. split; [exact Hform | exact Ht].
Defined.

(** X6. The file name is fixed by the clock reading alone. A second save
    that starts on the same reading as an earlier one writes to the same
    path and replaces the earlier entry's file: the archive then holds the
    later entry only, and no new file appears. *)
Theorem saveToLadger_same_instant_overwrites
        (env1 env2 : Env) (w v : World) :
  archive_fails env1 w = false →
  files v = files (snd (AppHome.saveToLadger env1 w)) →
  archive_fails env2 v = false →
  clock env2 (ticks v) = clock env1 (ticks w) →
  let v' := snd (AppHome.saveToLadger env2 v) in
  archive_path env2 v = archive_path env1 w
  ∧ files v'
    = <[archive_path env1 w :=
          AppHome.render_content (debitor v) (debit v) (credit v) (creditor v)]>
        (files w)
  ∧ dom (files v') = dom (files (snd (AppHome.saveToLadger env1 w))).
Proof.
  intros Ha1 Hfiles Ha2 Hclk. cbv zeta.
  assert (Hpath : archive_path env2 v = archive_path env1 w).
  { unfold archive_path. rewrite Hclk. reflexivity. }
  split; [exact Hpath|].
  rewrite (saveToLadger_written_files env2 v Ha2), Hfiles,
    (saveToLadger_written_files env1 w Ha1), Hpath.
  rewrite insert_insert_eq. split; [reflexivity|].
  rewrite !dom_insert_L. reflexivity.
Qed.

Lemma saveToLadger_same_instant_overwrites_witness :
  map_to_list
    (files (snd (AppHome.saveToLadger env_stuck_clock w_carol_after_alice)))
  = [("Vault/Finance/Transactions/ladger-entry-2025-01-15T10-20-30-123Z.md",
      "---
debitor: Carol
debit: -700
credit: 700
creditor: Dave
---
")].
Proof.
  destruct (saveToLadger_same_instant_overwrites
              env_stuck_clock env_stuck_clock w_alice w_carol_after_alice
              eq_refl eq_refl eq_refl eq_refl) as (_ & Hf & _).
  rewrite Hf. vm_compute. reflexivity.
Defined.

Lemma replace_colon_dot_length s :
  String.length (replace_colon_dot s) = String.length s.
Proof. induction s as [|c s IH]; cbn; congruence. Qed.

(** X7. Sanitising a timestamp keeps its length, sanitising twice is the
    same as sanitising once, and exactly the strings without [:] and [.]
    are left as they are. *)
Theorem replace_colon_dot_idempotent (s : string) :
  String.length (replace_colon_dot s) = String.length s
  ∧ replace_colon_dot (replace_colon_dot s) = replace_colon_dot s
  ∧ (no_colon_dot s = true ↔ replace_colon_dot s = s).
Proof.
  split; [apply replace_colon_dot_length|]. split.
  - induction s as [|c s IH]; [reflexivity|].
    cbn [replace_colon_dot]. rewrite IH. f_equal.
    destruct (Ascii.eqb c ":" || Ascii.eqb c ".")%bool eqn:E; [reflexivity|].
    rewrite E. reflexivity.
  - split.
    + induction s as [|c s IH]; [reflexivity|].
      cbn [replace_colon_dot no_colon_dot]. intros H.
      apply andb_prop in H as [H Hs]. apply andb_prop in H as [H1 H2].
      apply negb_true_iff in H1, H2. rewrite H1, H2, (IH Hs). reflexivity.
    + intros <-. apply replace_colon_dot_safe.
Qed.

(** X8. [onMounted] has no handler of its own: a rejected
    [Database.load] is thrown on with the connection ref still [null], a
    rejected [select] is thrown on with the connection already stored;
    either way the displayed list stays as it was, and in no case does
    [onMounted] write to the database, the files or the console. *)
Theorem onMounted_propagates (env : Env) (w : World) :
  let r := onMounted env w in
  (∀ e, load_fault env = Some e →
        fst r = Throw e ∧ db (snd r) = db w
        ∧ transactions (snd r) = transactions w)
  ∧ (∀ e, load_fault env = None → select_fault env = Some e →
          fst r = Throw e ∧ db (snd r) = Some "sqlite:aurelio.db"
          ∧ transactions (snd r) = transactions w)
  ∧ sqlite (snd r) = sqlite w ∧ files (snd r) = files w
  ∧ console (snd r) = console w.
Proof.
  cbv zeta.
  destruct env as [clk fe fm fw fx fs fl].
  destruct w as [d de c cr h tx fi ds s co t].
  destruct fl, fs; run_script; repeat split; intros; congruence.
Qed.

Lemma onMounted_propagates_witness :
  fst (onMounted env_load_fails w_unmounted) = Throw "unable to open database"
  ∧ db (snd (onMounted env_load_fails w_unmounted)) = None
  ∧ fst (onMounted env_select_fails w_unmounted) = Throw "disk I/O error"
  ∧ db (snd (onMounted env_select_fails w_unmounted))
    = Some "sqlite:aurelio.db".
Proof.
  destruct (onMounted_propagates env_load_fails w_unmounted)
    as (Hl & _ & _).
  destruct (Hl "unable to open database" eq_refl) as (Hr & Hd & _).
  destruct (onMounted_propagates env_select_fails w_unmounted)
    as (_ & Hs & _).
  destruct (Hs "disk I/O error" eq_refl eq_refl) as (Hr' & Hd' & _).
  split; [exact Hr|]. split; [exact Hd|]. split; [exact Hr' | exact Hd'].
Defined.






(** X11. The archive-only view: [saveToLadger] always returns normally and
    never touches the database or the displayed list. When its file-system
    calls go through it writes [---debitor: ..] (no line break after the
    opening delimiter) to [Vault/Transactions/ladger-entry-<timestamp>.md]
    and resets the form; when one of them rejects, no file changes and the
    form keeps its values. *)
Theorem archive_only_saveToLadger (env : Env) (w : World) :
  let r := AppHomeArchiveOnly.saveToLadger env w in
  let ts := replace_colon_dot (clock env (ticks w)) in
  let path := "Vault/Transactions/ladger-entry-" +:+ ts +:+ ".md" in
  fst r = Normal tt
  ∧ sqlite (snd r) = sqlite w
  ∧ transactions (snd r) = transactions w
  ∧ (exists_fault env = None →
     "Vault/Transactions" ∈ dirs w ∨ mkdir_fault env = None →
     writeTextFile_fault env = None →
     files (snd r) !! path
     = Some ("---debitor: " +:+ debitor w +:+ "
debit: " +:+ pretty (debit w) +:+ "
credit: " +:+ pretty (credit w) +:+ "
creditor: " +:+ creditor w +:+ "
---
")
     ∧ form_fields (snd r) = ("", 0, 0, ""))
  ∧ (is_Some (exists_fault env)
     ∨ (("Vault/Transactions" ∉ dirs w) ∧ is_Some (mkdir_fault env))
     ∨ is_Some (writeTextFile_fault env) →
     files (snd r) = files w ∧ form_fields (snd r) = form_fields w).
Proof.
  cbv zeta. unfold AppHomeArchiveOnly.saveToLadger.
  destruct env as [clk fe fm fw fx fs fl].
  destruct w as [d de c cr h tx fi ds s co t].
  destruct fe, fm, fw; run_script;
    destruct (bool_decide (AppHomeArchiveOnly.dirPath ∈ ds)) eqn:Hdir;
    cbv beta iota.
  all: try apply bool_decide_eq_true in Hdir.
  all: try apply bool_decide_eq_false in Hdir.
  all: do 3 (split; [reflexivity|]).
  all: split.
  all: try (intros ? ? ?; discriminate).
  all: try (intros _; split; reflexivity).
  all: try (intros _ _ _; split; [apply lookup_insert_eq | reflexivity]).
  all: try (intros _ [Hin|[=]] _; contradiction).
  all: intros [[? [=]]|[[Hn [? Hm]]|[? [=]]]];
    first [contradiction | discriminate].
Qed.

Lemma archive_only_saveToLadger_witness :
  files (snd (AppHomeArchiveOnly.saveToLadger env_ok w_alice))
    !! "Vault/Transactions/ladger-entry-2025-01-15T10-20-30-123Z.md"
  = Some "---debitor: Alice
debit: -5000
credit: 5000
creditor: Bob
---
"
  ∧ form_fields (snd (AppHomeArchiveOnly.saveToLadger env_write_fails w_alice))
    = ("Alice", -5000, 5000, "Bob").
Proof.
  destruct (archive_only_saveToLadger env_ok w_alice) as (_ & _ & _ & Hok & _).
  destruct (Hok eq_refl (or_intror eq_refl) eq_refl) as (Hf & _).
  destruct (archive_only_saveToLadger env_write_fails w_alice)
    as (_ & _ & _ & _ & Hfail).
  destruct Hfail as (_ & Hform).
  { right. right. eexists. reflexivity. }
  split; [exact Hf | exact Hform].
Defined.

(** X12. Mounting and then saving compose: with no rejecting call, whatever
    the connection ref held before, the save goes through and the
    displayed list is the stored table followed by the new row. *)
Theorem mount_then_save (env : Env) (w : World) :
  fault_free env = true →
  let w1 := snd (onMounted env w) in
  let r := AppHome.saveToLadger env w1 in
  fst (onMounted env w) = Normal tt
  ∧ fst r = Normal tt
  ∧ transactions (snd r)
    = (table (sqlite w)
         ++ [mkRow (last_id (sqlite w) + 1) (debitor w) (debit w) (credit w)
                   (creditor w) (clock env (S (ticks w)))])%list
  ∧ form_fields (snd r) = ("", 0, 0, "").
Proof.
  intros Hff. cbv zeta.
  destruct env as [clk fe fm fw fx fs fl].
  destruct w as [d de c cr h tx fi ds s co t].
  destruct fe, fm, fw, fx, fs, fl; try discriminate.
  run_script.
  destruct (bool_decide (AppHome.dirPath ∈ ds)); repeat split.
Qed.

Lemma mount_then_save_witness :
  transactions
    (snd (AppHome.saveToLadger env_ok (snd (onMounted env_ok w_unmounted))))
  = [mkRow 1 "Alice" (-5000) 5000 "Bob" "2025-01-15T10:20:30.456Z";
     mkRow 2 "" 0 0 "" "2025-01-15T10:20:30.456Z"].
Proof.
  destruct (mount_then_save env_ok w_unmounted eq_refl) as (_ & _ & Ht & _).
  exact Ht.
Defined.

(** ** Further properties of the migration aggregator *)

Section SortByKeyMore.
Context {A : Type} (key : A → Z).

Lemma insert_by_key_front x l :
  Forall (λ y, key x ≤ key y) l → insert_by_key key x l = x :: l.
Proof.
  destruct 1 as [|y l Hy Hl]; [reflexivity|].
  cbn [insert_by_key]. rewrite decide_True by exact Hy. reflexivity.
Qed.

Lemma sort_by_key_fixes_sorted l :
  StronglySorted (λ a b, key a ≤ key b) l → sort_by_key key l = l.
Proof.
  induction 1 as [|x l Hl IH Hx]; [reflexivity|].
  cbn [sort_by_key foldr]. fold (sort_by_key key l).
  rewrite IH. apply insert_by_key_front, Hx.
Qed.

Lemma filter_key_NoDup_short v l :
  NoDup (key <$> l) → (length (filter (λ a, key a = v) l) ≤ 1)%nat.
Proof.
  induction l as [|x l IH]; [cbn; lia|].
  rewrite fmap_cons, NoDup_cons. intros [Hx Hnd].
  rewrite filter_cons. case_decide as Hk; [|apply IH, Hnd].
  assert (Hnone : filter (λ a, key a = v) l = []).
  { destruct (filter (λ a, key a = v) l) as [|y f] eqn:Hf; [reflexivity|].
    exfalso. apply Hx.
    assert (Hy : y ∈ filter (λ a, key a = v) l) by (rewrite Hf; left).
    apply list_elem_of_filter in Hy as [Hyv Hyl].
    rewrite Hk, <- Hyv. apply list_elem_of_fmap_2, Hyl. }
  rewrite Hnone. cbn. lia.
Qed.

Lemma filter_key_NoDup_single v l :
  NoDup (key <$> l) → v ∈ key <$> l →
  ∃ a, filter (λ a, key a = v) l = [a].
Proof.
  intros Hnd (a & -> & Ha)%list_elem_of_fmap.
  pose proof (filter_key_NoDup_short (key a) l Hnd) as Hlen.
  assert (Hin : a ∈ filter (λ x, key x = key a) l).
  { apply list_elem_of_filter. split; [reflexivity | exact Ha]. }
  destruct (filter (λ x, key x = key a) l) as [|y [|z f]].
  - inversion Hin.
  - exists y. reflexivity.
  - cbn in Hlen. lia.
Qed.

End SortByKeyMore.

Lemma assert_no_duplicates_first seen ms msg :
  assert_no_duplicates seen ms = Some msg →
  ∃ l1 m l2, ms = (l1 ++ m :: l2)%list ∧ msg = duplicate_message m
             ∧ NoDup (version <$> l1)
             ∧ (∀ x, x ∈ l1 → version x ∉ seen)
             ∧ (version m ∈ seen ∨ version m ∈ version <$> l1).
Proof.
  revert seen. induction ms as [|m ms IH]; intros seen; [discriminate|].
  cbn [assert_no_duplicates hash_set_insert].
  case_bool_decide as Hm.
  - intros (l1 & m' & l2 & -> & -> & Hnd & Hfresh & Hin)%IH.
    exists (m :: l1), m', l2. split; [reflexivity|]. split; [reflexivity|].
    rewrite fmap_cons. split; [|split].
    + apply NoDup_cons. split; [|exact Hnd].
      intros (x & Hv & Hx)%list_elem_of_fmap.
      apply (Hfresh x Hx), elem_of_union_l, elem_of_singleton. congruence.
    + intros x [->|Hx]%elem_of_cons; [exact Hm|].
      intros Hin'. apply (Hfresh x Hx), elem_of_union_r, Hin'.
    + destruct Hin as [[Heq%elem_of_singleton|Hin]%elem_of_union|Hin].
      * right. rewrite Heq. left.
      * left. exact Hin.
      * right. right. exact Hin.
  - intros [= <-]. exists [], m, ms. split; [reflexivity|].
    split; [reflexivity|]. split; [constructor|].
    split; [intros x Hx; inversion Hx|]. left.
    destruct (decide (version m ∈ seen)); [assumption | contradiction].
Qed.

(** X13. Whenever [all_migrations] returns, in either build, the result
    holds exactly the registered descriptors, in ascending order of
    version, and descriptors that share a version keep the order in which
    they were registered. *)
Theorem all_migrations_stable_sort
        (debug_assertions : bool) (registered migrations : list Migration) :
  all_migrations_from debug_assertions registered = Returned migrations →
  migrations ≡ₚ registered
  ∧ StronglySorted (λ a b, version a ≤ version b) migrations
  ∧ ∀ v, filter (λ m, version m = v) migrations
         = filter (λ m, version m = v) registered.
Proof.
  unfold all_migrations_from. cbv zeta. intros Hret.
  assert (Hms : migrations = sort_by_key version registered).
  { destruct debug_assertions; [|congruence].
    destruct (assert_no_duplicates ∅ (sort_by_key version registered));
      congruence. }
  subst migrations. split; [apply sort_by_key_perm|].
  split; [apply (sort_by_key_sorted version)|].
  intros v. apply (sort_by_key_stable version).
Qed.

Lemma all_migrations_stable_sort_witness :
  filter (λ m, version m = 20250115000001)
         (sort_by_key version [dup_b; mig 3 "z"; dup_a])
  = [dup_b; dup_a].
Proof.
  destruct (all_migrations_stable_sort false [dup_b; mig 3 "z"; dup_a]
              (sort_by_key version [dup_b; mig 3 "z"; dup_a]) eq_refl)
    as (_ & _ & Hst).
  rewrite Hst. reflexivity.
Defined.

(** X14. Running the aggregator over a sequence it has returned gives that
    sequence back: the result is already in its final order. *)
Theorem all_migrations_idempotent
        (debug_assertions : bool) (registered migrations : list Migration) :
  all_migrations_from debug_assertions registered = Returned migrations →
  all_migrations_from debug_assertions migrations = Returned migrations.
Proof.
  unfold all_migrations_from. cbv zeta. intros Hret.
  assert (Hfix : sort_by_key version (sort_by_key version registered)
                 = sort_by_key version registered).
  { apply sort_by_key_fixes_sorted, (sort_by_key_sorted version). }
  destruct debug_assertions.
  - destruct (assert_no_duplicates ∅ (sort_by_key version registered))
      eqn:Hchk; [discriminate|].
    injection Hret as <-. rewrite Hfix, Hchk. reflexivity.
  - injection Hret as <-. rewrite Hfix. reflexivity.
Qed.

Lemma all_migrations_idempotent_witness :
  all_migrations_from true
    [mig 20250115000001 "a"; mig 20250115000002 "b"; mig 20250201000001 "c"]
  = Returned
      [mig 20250115000001 "a"; mig 20250115000002 "b";
       mig 20250201000001 "c"].
Proof.
  apply (all_migrations_idempotent true spec_example). reflexivity.
Defined.

(** X15. With debug assertions, whatever [run] passes to [add_migrations]
    goes to [sqlite:aurelio.db], consists of the registered descriptors,
    and has pairwise distinct, strictly ascending versions. *)
Theorem debug_run_hands_over_distinct_versions
        (registered migrations : list Migration) (db_url : string) :
  run_from true registered = AddMigrations db_url migrations →
  db_url = "sqlite:aurelio.db"
  ∧ NoDup (version <$> registered)
  ∧ migrations ≡ₚ registered
  ∧ StronglySorted ascending migrations.
Proof.
  unfold run_from, all_migrations_from. cbv zeta.
  destruct (assert_no_duplicates ∅ (sort_by_key version registered))
    eqn:Hchk; [discriminate|].
  intros [= <- <-].
  apply assert_no_duplicates_passes in Hchk as [Hnd _].
  split; [reflexivity|].
  split; [rewrite <- (sort_by_key_perm version registered); exact Hnd|].
  split; [apply sort_by_key_perm|].
  apply (sorted_distinct_strict version);
    [exact Hnd | apply sort_by_key_sorted].
Qed.

Lemma debug_run_hands_over_distinct_versions_witness :
  NoDup (version <$> spec_example).
Proof.
  destruct (debug_run_hands_over_distinct_versions spec_example
              [mig 20250115000001 "a"; mig 20250115000002 "b";
               mig 20250201000001 "c"]
              "sqlite:aurelio.db" eq_refl) as (_ & Hnd & _).
  exact Hnd.
Defined.

(** X16. With debug assertions and a shared version, the panic reports the
    smallest version that is registered more than once, with the
    description of the second descriptor registered under it. *)
Theorem debug_panic_names_first_duplicate (registered : list Migration) :
  shares_version registered →
  ∃ a m rest,
    all_migrations_from true registered = Panicked (duplicate_message m)
    ∧ filter (λ x, version x = version m) registered = a :: m :: rest
    ∧ ∀ v, (1 < length (filter (λ x, version x = v) registered))%nat →
           version m ≤ v.
Proof.
  intros Hdup%shares_version_not_NoDup.
  unfold all_migrations_from. cbv zeta.
  pose proof (sort_by_key_sorted version registered) as Hsorted.
  pose proof (sort_by_key_stable version) as Hstable.
  destruct (assert_no_duplicates ∅ (sort_by_key version registered))
    as [msg|] eqn:Hchk.
  - apply assert_no_duplicates_first in Hchk
      as (l1 & m & l2 & Hsplit & -> & Hnd & _ & [Hin|Hin]);
      [apply not_elem_of_empty in Hin; contradiction|].
    rewrite Hsplit in Hsorted.
    apply StronglySorted_app in Hsorted as (Hcross & _ & Hm2).
    apply StronglySorted_cons in Hm2 as [Hm2 _].
    destruct (filter_key_NoDup_single version (version m) l1 Hnd Hin)
      as [a Ha].
    exists a, m, (filter (λ x, version x = version m) l2).
    split; [reflexivity|]. split.
    + rewrite <- Hstable, Hsplit, filter_app, filter_cons, Ha.
      rewrite decide_True by reflexivity. reflexivity.
    + intros v Hv. rewrite <- Hstable, Hsplit, filter_app, filter_cons in Hv.
      destruct (decide (version m ≤ v)) as [|Hlt]; [assumption|].
      exfalso.
      rewrite decide_False in Hv by lia.
      assert (Hl2 : filter (λ x, version x = v) l2 = []).
      { destruct (filter (λ x, version x = v) l2) as [|y f] eqn:Hf;
          [reflexivity|]. exfalso.
        assert (Hy : y ∈ filter (λ x, version x = v) l2) by (rewrite Hf; left).
        apply list_elem_of_filter in Hy as [Hyv Hy].
        rewrite Forall_forall in Hm2. specialize (Hm2 y Hy). cbn in Hm2. lia. }
      rewrite Hl2, length_app in Hv. cbn in Hv.
      pose proof (filter_key_NoDup_short version v l1 Hnd). lia.
  - exfalso. apply Hdup.
    apply assert_no_duplicates_passes in Hchk as [Hnd _].
    rewrite (sort_by_key_perm version registered) in Hnd. exact Hnd.
Qed.

Lemma debug_panic_names_first_duplicate_witness :
  ∃ a m rest,
    all_migrations_from true [dup_a; mig 3 "z"; dup_b; mig 3 "y"]
    = Panicked (duplicate_message m)
    ∧ filter (λ x, version x = version m) [dup_a; mig 3 "z"; dup_b; mig 3 "y"]
      = a :: m :: rest.
Proof.
  assert (Hs : shares_version [dup_a; mig 3 "z"; dup_b; mig 3 "y"]).
  { exists 0%nat, 2%nat, dup_a, dup_b. repeat split. lia. }
  destruct (debug_panic_names_first_duplicate _ Hs)
    as (a & m & rest & Hp & Hf & _).
  exists a, m, rest. split; [exact Hp | exact Hf].
Defined.

Lemma string_length_append (s1 s2 : string) :
  String.length (s1 +:+ s2) = (String.length s1 + String.length s2)%nat.
Proof.
  induction s1 as [|c s1 IH]; [reflexivity|].
  change (S (String.length (s1 +:+ s2))
          = S (String.length s1 + String.length s2)).
  f_equal. exact IH.
Qed.

Lemma string_append_same_length_inj (s1 s2 r1 r2 : string) :
  String.length s1 = String.length s2 →
  s1 +:+ r1 = s2 +:+ r2 → s1 = s2 ∧ r1 = r2.
Proof.
  revert s2. induction s1 as [|c s1 IH]; intros [|c' s2] Hlen Heq;
    try discriminate.
  - split; [reflexivity | exact Heq].
  - cbn in Hlen, Heq. injection Hlen as Hlen. injection Heq as -> Heq.
    destruct (IH s2 Hlen Heq) as [-> ->]. split; reflexivity.
Qed.

(** X17. [updated_at_trigger] splices the table name in three times into a
    fixed text of 151 bytes, and distinct table names give distinct
    trigger statements. *)
Theorem updated_at_trigger_distinct (t1 t2 : string) :
  t1 ≠ t2 →
  helpers.updated_at_trigger t1 ≠ helpers.updated_at_trigger t2
  ∧ String.length (helpers.updated_at_trigger t1)
    = (151 + 3 * String.length t1)%nat.
Proof.
  intros Hne.
  assert (Hlen : ∀ t, String.length (helpers.updated_at_trigger t)
                      = (151 + 3 * String.length t)%nat).
  { intros t. unfold helpers.updated_at_trigger.
    rewrite !string_length_append. cbn [String.length]. lia. }
  split; [|apply Hlen].
  intros Heq. apply Hne.
  assert (Hl : String.length t1 = String.length t2).
  { apply (f_equal String.length) in Heq. rewrite !Hlen in Heq. lia. }
  unfold helpers.updated_at_trigger in Heq.
  apply (inj (String.app _)) in Heq.
  apply (string_append_same_length_inj _ _ _ _ Hl) in Heq as [Ht _].
  exact Ht.
Qed.

Lemma updated_at_trigger_distinct_witness :
  helpers.updated_at_trigger "users" ≠ helpers.updated_at_trigger "accounts"
  ∧ String.length (helpers.updated_at_trigger "users") = 166%nat.
Proof.
  apply (updated_at_trigger_distinct "users" "accounts"). discriminate.
Defined.
